(** * Transcription session controller (src/pages/Index.tsx)

    A shallow embedding of the [Index] React component: its three pieces of
    hook state, the recognition object held in [recognitionRef], the two
    [useEffect] bodies, the three recognition callbacks and the four click
    handlers.  Calls into the browser (toast, clipboard, recognition
    start/stop, file download, console) are recorded as a chronological
    trace of [Effect]s. *)

From Stdlib Require Import String Ascii List Bool Arith ZArith Lia.
Import ListNotations.
Local Open Scope string_scope.

(** ** JavaScript values used by the component *)

Module JS.

(** [if (s)] on a string: the empty string is the only falsy one. *)
Definition truthy (s : string) : bool :=
  match s with
  | EmptyString => false
  | String _ _ => true
  end.

(** [s.split(sep)] for a one-character separator. *)
Fixpoint split (sep : ascii) (s : string) : list string :=
  match s with
  | EmptyString => [EmptyString]
  | String ch rest =>
      if Ascii.eqb ch sep then EmptyString :: split sep rest
      else match split sep rest with
           | [] => [String ch EmptyString]
           | piece :: pieces => String ch piece :: pieces
           end
  end.

(** [arr[0]] on an array of strings ([split] never returns an empty
    array, so the default is not observable). *)
Definition first (arr : list string) : string := hd EmptyString arr.

Definition digit (n : nat) : ascii := ascii_of_nat (48 + n mod 10).

(** Decimal rendering of [n] on exactly [width] digits, zero padded. *)
Fixpoint pad (width n : nat) : string :=
  match width with
  | 0 => EmptyString
  | S w => pad w (n / 10) ++ String (digit n) EmptyString
  end.

(** A [Date], given by the UTC fields [toISOString] prints. *)
Record Date := {
  year : Z;
  month : nat;          (* 1..12 *)
  day : nat;            (* 1..31 *)
  hours : nat;
  minutes : nat;
  seconds : nat;
  milliseconds : nat
}.

(** Years 0..9999 print on four digits, the others as a sign and six. *)
Definition isoYear (y : Z) : string :=
  if ((0 <=? y) && (y <=? 9999))%Z then pad 4 (Z.to_nat y)
  else (if (y <? 0)%Z then "-" else "+") ++ pad 6 (Z.abs_nat y).

(** The [YYYY-MM-DD] part of the ISO rendering. *)
Definition isoDate (d : Date) : string :=
  isoYear (year d) ++ "-" ++ pad 2 (month d) ++ "-" ++ pad 2 (day d).

Definition isoTime (d : Date) : string :=
  pad 2 (hours d) ++ ":" ++ pad 2 (minutes d) ++ ":" ++ pad 2 (seconds d)
    ++ "." ++ pad 3 (milliseconds d) ++ "Z".

(** [d.toISOString()] *)
Definition toISOString (d : Date) : string :=
  isoDate d ++ "T" ++ isoTime d.

End JS.

(** ** The Web Speech API objects the callbacks receive *)

Record SpeechRecognitionAlternative := {
  alt_transcript : string
}.

(** [results[i]]: a non-empty list of alternatives and the finality flag.
    [results[i][0]] is [first_alternative]. *)
Record SpeechRecognitionResult := {
  first_alternative : SpeechRecognitionAlternative;
  other_alternatives : list SpeechRecognitionAlternative;
  isFinal : bool
}.

Record SpeechRecognitionEvent := {
  resultIndex : nat;
  results : list SpeechRecognitionResult
}.

Record SpeechRecognitionErrorEvent := {
  error : string
}.

(** What [window] offers: the two constructor names the mount effect
    looks up. *)
Record Window := {
  has_SpeechRecognition : bool;
  has_webkitSpeechRecognition : bool
}.

Inductive RecognitionCtor := StandardCtor | WebkitCtor.

(** The recognition object created on mount.  Its [onend] callback is a
    closure built inside the mount effect; [onend_isListening] is the value
    of the [isListening] binding that closure captured. *)
Record SpeechRecognition := {
  ctor : RecognitionCtor;
  continuous : bool;
  interimResults : bool;
  lang : string;
  onend_isListening : bool
}.

(** ** Browser calls made by the component *)

Inductive ToastVariant := Destructive.

Record Toast := {
  title : string;
  description : string;
  variant : option ToastVariant
}.

Record Blob := {
  blobParts : list string;
  blob_type : string
}.

(** The [<a>] element of the download handler; [href] is the object URL
    of the blob, kept as the blob it stands for. *)
Record Anchor := {
  href : Blob;
  download : string
}.

Inductive Effect :=
| ShowToast (t : Toast)
| ConsoleError (label detail : string)
| RecognitionStart
| RecognitionStop
| ClipboardWriteText (text : string)
| CreateObjectURL (file : Blob)
| BodyAppendChild (element : Anchor)
| AnchorClick (element : Anchor)
| BodyRemoveChild (element : Anchor).

(** ** Component state *)

Record Component := {
  isListening : bool;
  transcript : string;
  runInBackground : bool;
  recognitionRef : option SpeechRecognition
}.

Inductive SessionState := Idle | Listening.

Definition sessionState (c : Component) : SessionState :=
  if isListening c then Listening else Idle.

(** An action updates the hook state and emits browser calls. *)
Definition Action := Component -> Component * list Effect.

Definition skip : Action := fun c => (c, []).

Definition emit (e : Effect) : Action := fun c => (c, [e]).

Definition seq (a b : Action) : Action :=
  fun c =>
    let (c1, t1) := a c in
    let (c2, t2) := b c1 in
    (c2, (t1 ++ t2)%list).

Declare Scope action_scope.
Delimit Scope action_scope with action.
Bind Scope action_scope with Action.
Notation "a ;; b" := (seq a b) (at level 61, right associativity) : action_scope.
Local Open Scope action_scope.

Definition setIsListening (b : bool) : Action :=
  fun c =>
    ({| isListening := b;
        transcript := transcript c;
        runInBackground := runInBackground c;
        recognitionRef := recognitionRef c |}, []).

(** [setTranscript(prev => f(prev))] *)
Definition setTranscriptWith (f : string -> string) : Action :=
  fun c =>
    ({| isListening := isListening c;
        transcript := f (transcript c);
        runInBackground := runInBackground c;
        recognitionRef := recognitionRef c |}, []).

(** [setTranscript(v)] *)
Definition setTranscript (v : string) : Action :=
  setTranscriptWith (fun _ => v).

Definition setRunInBackground (b : bool) : Action :=
  fun c =>
    ({| isListening := isListening c;
        transcript := transcript c;
        runInBackground := b;
        recognitionRef := recognitionRef c |}, []).

Definition setRecognitionRef (r : option SpeechRecognition) : Action :=
  fun c =>
    ({| isListening := isListening c;
        transcript := transcript c;
        runInBackground := runInBackground c;
        recognitionRef := r |}, []).

Definition toast (t : Toast) : Action := emit (ShowToast t).

Definition hasRecognition (c : Component) : bool :=
  match recognitionRef c with
  | Some _ => true
  | None => false
  end.

(** ** Recognition callbacks (installed by the mount effect) *)

(** The [for] loop of [onresult], from index [i], at most [fuel] rounds. *)
Fixpoint onresult_loop (rs : list SpeechRecognitionResult) (i fuel : nat)
    (interimTranscript finalTranscript : string) : string * string :=
  match fuel with
  | 0 => (interimTranscript, finalTranscript)
  | S fuel' =>
      match nth_error rs i with
      | None => (interimTranscript, finalTranscript)
      | Some r =>
          let transcript := alt_transcript (first_alternative r) in
          if isFinal r
          then onresult_loop rs (S i) fuel' interimTranscript
                 (finalTranscript ++ transcript)
          else onresult_loop rs (S i) fuel' (interimTranscript ++ transcript)
                 finalTranscript
      end
  end.

Definition onresult (event : SpeechRecognitionEvent) : Action :=
  let '(interimTranscript, finalTranscript) :=
    onresult_loop (results event) (resultIndex event)
      (length (results event)) "" "" in
  setTranscriptWith (fun prev => prev ++ finalTranscript).

Definition errorToast (event : SpeechRecognitionErrorEvent) : Toast :=
  {| title := "Error";
     description := "Speech recognition error: " ++ error event;
     variant := Some Destructive |}.

Definition onerror (event : SpeechRecognitionErrorEvent) : Action :=
  emit (ConsoleError "Speech recognition error" (error event)) ;;
  toast (errorToast event) ;;
  setIsListening false.

(** [recognitionRef.current?.start()] *)
Definition startCurrent : Action :=
  fun c => if hasRecognition c then emit RecognitionStart c else skip c.

(** [onend] of the recognition object [r]: the test reads the binding the
    closure captured. *)
Definition onend (r : SpeechRecognition) : Action :=
  if onend_isListening r then startCurrent else skip.

(** ** Effects of the component *)

Definition notSupportedToast : Toast :=
  {| title := "Speech Recognition Not Supported";
     description := "Your browser does not support speech recognition.";
     variant := Some Destructive |}.

(** First [useEffect] (dependency list [[]]): runs once, after the first
    render, with that render's bindings [c]. *)
Definition mountEffect (w : Window) (c : Component) : Action :=
  if negb (has_webkitSpeechRecognition w) && negb (has_SpeechRecognition w)
  then toast notSupportedToast
  else
    setRecognitionRef
      (Some {| ctor := if has_SpeechRecognition w then StandardCtor
                       else WebkitCtor;
               continuous := true;
               interimResults := true;
               lang := "en-US";
               onend_isListening := isListening c |}).

(** Cleanup returned by the first [useEffect], run when the component is
    torn down. *)
Definition unmountCleanup : Action :=
  fun c => if hasRecognition c then emit RecognitionStop c else skip c.

(** Second [useEffect] (dependency list [[isListening]]). *)
Definition listeningEffect : Action :=
  fun c =>
    if isListening c && hasRecognition c then emit RecognitionStart c
    else if negb (isListening c) && hasRecognition c then emit RecognitionStop c
    else skip c.

(** ** Click handlers, built by the render whose bindings are [c] *)

Definition handleToggleListening (c : Component) : Action :=
  setIsListening (negb (isListening c)).

Definition copiedToast : Toast :=
  {| title := "Copied";
     description := "Transcript copied to clipboard";
     variant := None |}.

Definition handleCopyText (c : Component) : Action :=
  if JS.truthy (transcript c)
  then emit (ClipboardWriteText (transcript c)) ;; toast copiedToast
  else skip.

Definition downloadName (now : JS.Date) : string :=
  "transcript-" ++ JS.first (JS.split "T" (JS.toISOString now)) ++ ".txt".

Arguments downloadName : simpl never.

Definition handleDownloadText (now : JS.Date) (c : Component) : Action :=
  if JS.truthy (transcript c)
  then
    let file := {| blobParts := [transcript c]; blob_type := "text/plain" |} in
    let element := {| href := file; download := downloadName now |} in
    emit (CreateObjectURL file) ;;
    emit (BodyAppendChild element) ;;
    emit (AnchorClick element) ;;
    emit (BodyRemoveChild element)
  else skip.

Definition handleClearText : Action := setTranscript "".

(** ** The component as a transition system *)

Definition initial : Component :=
  {| isListening := false;
     transcript := "";
     runInBackground := false;
     recognitionRef := None |}.

(** First render followed by both effects, in declaration order. *)
Definition mount (w : Window) : Component * list Effect :=
  (mountEffect w initial ;; listeningEffect) initial.

(** Run a handler on the state [c], then re-render; the second effect runs
    again only when [isListening] changed. *)
Definition dispatch (c : Component) (handler : Action) : Component * list Effect :=
  let (c', t) := handler c in
  if Bool.eqb (isListening c) (isListening c') then (c', t)
  else let (c'', t') := listeningEffect c' in (c'', (t ++ t')%list).

Inductive Event :=
| toggleListening
| copyTranscript
| downloadTranscript (now : JS.Date)
| clearTranscript
| toggleBackground (checked : bool)
| result (event : SpeechRecognitionEvent)
| errored (event : SpeechRecognitionErrorEvent)
| ended.

(** Recognition notifications come from the recognition object, so they
    reach a callback only when one was created. *)
Definition step (c : Component) (e : Event) : Component * list Effect :=
  match e with
  | toggleListening => dispatch c (handleToggleListening c)
  | copyTranscript => dispatch c (handleCopyText c)
  | downloadTranscript now => dispatch c (handleDownloadText now c)
  | clearTranscript => dispatch c handleClearText
  | toggleBackground b => dispatch c (setRunInBackground b)
  | result ev =>
      match recognitionRef c with
      | Some _ => dispatch c (onresult ev)
      | None => (c, [])
      end
  | errored ev =>
      match recognitionRef c with
      | Some _ => dispatch c (onerror ev)
      | None => (c, [])
      end
  | ended =>
      match recognitionRef c with
      | Some r => dispatch c (onend r)
      | None => (c, [])
      end
  end.

Fixpoint run (c : Component) (es : list Event) : Component * list Effect :=
  match es with
  | [] => (c, [])
  | e :: es' =>
      let (c1, t1) := step c e in
      let (c2, t2) := run c1 es' in
      (c2, (t1 ++ t2)%list)
  end.

(** A whole session: mount in the browser [w], then the events [es]. *)
Definition session (w : Window) (es : list Event) : Component * list Effect :=
  let (c0, t0) := mount w in
  let (c, t) := run c0 es in
  (c, (t0 ++ t)%list).

(** ** Vocabulary of the specification *)

(** The text of a segment: the transcript of its first alternative. *)
Definition segmentText (r : SpeechRecognitionResult) : string :=
  alt_transcript (first_alternative r).

(** Concatenation of a list of strings, in list order. *)
Fixpoint joined (l : list string) : string :=
  match l with
  | [] => ""
  | x :: xs => x ++ joined xs
  end.

(** The batch a "result" notification delivers: the entries of [results]
    from [resultIndex] on. *)
Definition delivered (ev : SpeechRecognitionEvent) : list SpeechRecognitionResult :=
  skipn (resultIndex ev) (results ev).

(** Concatenation of the segments marked final, in order. *)
Definition finalText (segs : list SpeechRecognitionResult) : string :=
  joined (map segmentText (filter isFinal segs)).

Definition interimText (segs : list SpeechRecognitionResult) : string :=
  joined (map segmentText (filter (fun r => negb (isFinal r)) segs)).

(** The capability is reported unsupported when [window] has neither
    constructor. *)
Definition unsupported (w : Window) : bool :=
  negb (has_webkitSpeechRecognition w) && negb (has_SpeechRecognition w).

Definition isStart (e : Effect) : bool :=
  match e with
  | RecognitionStart => true
  | _ => false
  end.

Definition isNotSupportedToast (e : Effect) : bool :=
  match e with
  | ShowToast t => String.eqb (title t) "Speech Recognition Not Supported"
  | _ => false
  end.

(** Number of entries of a trace that satisfy [p]. *)
Definition occurrences (p : Effect -> bool) (tr : list Effect) : nat :=
  length (filter p tr).

(** [s] has no occurrence of the character [ch]. *)
Fixpoint lacks (ch : ascii) (s : string) : bool :=
  match s with
  | EmptyString => true
  | String x rest => negb (Ascii.eqb x ch) && lacks ch rest
  end.

(** The [onend] closure of the recognition object, if any, captured
    [isListening = false]. *)
Definition staleOnEnd (c : Component) : Prop :=
  match recognitionRef c with
  | Some r => onend_isListening r = false
  | None => True
  end.

(** Browsers and inputs used in the examples below. *)
Definition chrome : Window :=
  {| has_SpeechRecognition := false; has_webkitSpeechRecognition := true |}.

Definition noSpeech : Window :=
  {| has_SpeechRecognition := false; has_webkitSpeechRecognition := false |}.

Definition segment (text : string) (final : bool) : SpeechRecognitionResult :=
  {| first_alternative := {| alt_transcript := text |};
     other_alternatives := [];
     isFinal := final |}.

Definition batch (segs : list SpeechRecognitionResult) : SpeechRecognitionEvent :=
  {| resultIndex := 0; results := segs |}.

Definition someDay : JS.Date :=
  {| JS.year := 2024; JS.month := 3; JS.day := 9; JS.hours := 14;
     JS.minutes := 5; JS.seconds := 7; JS.milliseconds := 42 |}.

Definition withTranscript (text : string) (c : Component) : Component :=
  {| isListening := isListening c;
     transcript := text;
     runInBackground := runInBackground c;
     recognitionRef := recognitionRef c |}.

(** ** The rendered view

    The parts of the JSX returned by [Index] that depend on the hook
    state; the static markup around them is left out. *)

Inductive ButtonVariant := VariantDestructive | VariantDefault.

Inductive ToggleIcon := MicOffIcon | MicIcon.

Inductive Pane :=
| TranscriptText (text : string)
| Placeholder (hint : string).

Record View := {
  toggleVariant : ButtonVariant;  (* isListening ? "destructive" : "default" *)
  toggleIcon : ToggleIcon;        (* isListening ? <MicOff/> : <Mic/> *)
  toggleLabel : string;
  pulse : bool;                   (* isListening && <span>dot</span> *)
  switchChecked : bool;           (* checked={runInBackground} *)
  backgroundNote : bool;          (* runInBackground && <div>Note</div> *)
  pane : Pane;
  clearDisabled : bool;           (* disabled={!transcript} *)
  copyDisabled : bool;
  downloadDisabled : bool
}.

Definition render (c : Component) : View :=
  {| toggleVariant := if isListening c then VariantDestructive else VariantDefault;
     toggleIcon := if isListening c then MicOffIcon else MicIcon;
     toggleLabel := if isListening c then "Stop Listening" else "Start Listening";
     pulse := isListening c;
     switchChecked := runInBackground c;
     backgroundNote := runInBackground c;
     pane := if JS.truthy (transcript c) then TranscriptText (transcript c)
             else Placeholder "Start speaking to see the transcript...";
     clearDisabled := negb (JS.truthy (transcript c));
     copyDisabled := negb (JS.truthy (transcript c));
     downloadDisabled := negb (JS.truthy (transcript c)) |}.

(** ** Vocabulary for whole sessions *)

Definition isClear (e : Event) : bool :=
  match e with
  | clearTranscript => true
  | _ => false
  end.

Definition isBackgroundToggle (e : Event) : bool :=
  match e with
  | toggleBackground _ => true
  | _ => false
  end.

Definition isEnded (e : Event) : bool :=
  match e with
  | ended => true
  | _ => false
  end.

(** The segments delivered by the "result" notifications of [es], in
    arrival order. *)
Definition resultBatches (es : list Event) : list SpeechRecognitionResult :=
  flat_map (fun e => match e with
                     | result ev => delivered ev
                     | _ => []
                     end) es.

(** The events after the last Clear of [es], if it has one. *)
Fixpoint afterLastClear (es : list Event) : option (list Event) :=
  match es with
  | [] => None
  | e :: es' =>
      match afterLastClear es' with
      | Some tail => Some tail
      | None => if isClear e then Some es' else None
      end
  end.

Definition sinceLastClear (es : list Event) : list Event :=
  match afterLastClear es with
  | Some tail => tail
  | None => es
  end.






(** Reads the [start()]/[stop()] calls of a trace in order.  [expectStart]
    tells which call may come next; the result is what may come after the
    trace, or [None] when two calls of the same kind follow each other. *)
Fixpoint alternating (expectStart : bool) (tr : list Effect) : option bool :=
  match tr with
  | [] => Some expectStart
  | RecognitionStart :: tr' =>
      if expectStart then alternating false tr' else None
  | RecognitionStop :: tr' =>
      if expectStart then None else alternating true tr'
  | _ :: tr' => alternating expectStart tr'
  end.

Definition isStop (e : Effect) : bool :=
  match e with
  | RecognitionStop => true
  | _ => false
  end.









Definition withBackground (b : bool) (c : Component) : Component :=
  {| isListening := isListening c;
     transcript := transcript c;
     runInBackground := b;
     recognitionRef := recognitionRef c |}.

(** The recognition object the mount effect builds in the browser [w]. *)
Definition mountedRecognition (w : Window) : SpeechRecognition :=
  {| ctor := if has_SpeechRecognition w then StandardCtor else WebkitCtor;
     continuous := true;
     interimResults := true;
     lang := "en-US";
     onend_isListening := false |}.


(** * Proofs *)

Section Strings.

Lemma append_nil_r (s : string) : s ++ "" = s.
Proof. induction s as [|ch s IH]; simpl; [reflexivity | now rewrite IH]. Qed.

Lemma append_assoc (a b c : string) : (a ++ b) ++ c = a ++ b ++ c.
Proof. induction a as [|ch a IH]; simpl; [reflexivity | now rewrite IH]. Qed.

Lemma joined_app (l1 l2 : list string) :
  joined (l1 ++ l2)%list = joined l1 ++ joined l2.
Proof.
  induction l1 as [|x l1 IH]; simpl; [reflexivity|].
  now rewrite IH, append_assoc.
Qed.

Lemma lacks_app (ch : ascii) (a b : string) :
  lacks ch (a ++ b) = lacks ch a && lacks ch b.
Proof.
  induction a as [|x a IH]; simpl; [reflexivity|].
  now rewrite IH, andb_assoc.
Qed.

(** Splitting at a character the first piece lacks returns that piece. *)
Lemma split_first (ch : ascii) (a b : string) :
  lacks ch a = true -> JS.first (JS.split ch (a ++ String ch b)) = a.
Proof.
  induction a as [|x a IH]; simpl.
  - intros _. now rewrite Ascii.eqb_refl.
  - intros H. apply andb_true_iff in H as [Hx Ha].
    apply negb_true_iff in Hx. rewrite Hx.
    specialize (IH Ha).
    destruct (JS.split ch (a ++ String ch b)) as [|piece pieces]; simpl in *.
    + now subst a.
    + now subst piece.
Qed.

Lemma digit_not_T (n : nat) : Ascii.eqb (JS.digit n) "T" = false.
Proof.
  unfold JS.digit.
  pose proof (Nat.mod_upper_bound n 10 ltac:(lia)) as Hlt.
  remember (n mod 10) as k eqn:Hk. clear Hk.
  do 10 (destruct k as [|k]; [reflexivity|]). lia.
Qed.

Lemma pad_lacks_T (width n : nat) : lacks "T" (JS.pad width n) = true.
Proof.
  revert n. induction width as [|w IH]; intros n; simpl; [reflexivity|].
  rewrite lacks_app, IH. cbn [lacks andb]. now rewrite digit_not_T.
Qed.

Lemma isoYear_lacks_T (y : Z) : lacks "T" (JS.isoYear y) = true.
Proof.
  unfold JS.isoYear.
  destruct ((0 <=? y) && (y <=? 9999))%Z.
  - apply pad_lacks_T.
  - rewrite lacks_app, pad_lacks_T. now destruct (y <? 0)%Z.
Qed.

Lemma isoDate_lacks_T (d : JS.Date) : lacks "T" (JS.isoDate d) = true.
Proof.
  unfold JS.isoDate.
  rewrite !lacks_app, isoYear_lacks_T, !pad_lacks_T. reflexivity.
Qed.

(** [new Date().toISOString().split('T')[0]] is the date part. *)
Lemma iso_split_date (d : JS.Date) :
  JS.first (JS.split "T" (JS.toISOString d)) = JS.isoDate d.
Proof.
  unfold JS.toISOString.
  change ("T" ++ JS.isoTime d) with (String "T" (JS.isoTime d)).
  apply split_first, isoDate_lacks_T.
Qed.

Lemma downloadName_date (now : JS.Date) :
  downloadName now = "transcript-" ++ JS.isoDate now ++ ".txt".
Proof. unfold downloadName. now rewrite iso_split_date. Qed.

End Strings.

(** ** Result notifications *)

Section Results.

Lemma skipn_nth_some (rs : list SpeechRecognitionResult) (i : nat)
    (r : SpeechRecognitionResult) :
  nth_error rs i = Some r -> skipn i rs = r :: skipn (S i) rs.
Proof.
  revert i. induction rs as [|x rs IH]; intros [|i] H; simpl in *;
    try discriminate.
  - now inversion H.
  - now apply IH.
Qed.

Lemma skipn_nth_none (rs : list SpeechRecognitionResult) (i : nat) :
  nth_error rs i = None -> skipn i rs = [].
Proof.
  intros H. apply nth_error_None in H. now apply skipn_all2.
Qed.

(** The loop computes the two concatenations over the entries from [i]
    on, as soon as [fuel] covers them. *)
Lemma onresult_loop_spec (rs : list SpeechRecognitionResult) :
  forall (fuel i : nat) (interim final : string),
    length rs - i <= fuel ->
    onresult_loop rs i fuel interim final
    = (interim ++ interimText (skipn i rs), final ++ finalText (skipn i rs)).
Proof.
  induction fuel as [|fuel IH]; intros i interim final Hfuel.
  - assert (Hi : length rs <= i) by lia.
    rewrite (skipn_all2 rs Hi). simpl.
    unfold interimText, finalText. simpl. now rewrite !append_nil_r.
  - cbn [onresult_loop].
    destruct (nth_error rs i) as [r|] eqn:Hnth.
    + assert (Hlt : i < length rs)
        by (apply nth_error_Some; congruence).
      rewrite (skipn_nth_some _ _ _ Hnth).
      unfold interimText, finalText. cbn [filter].
      destruct (isFinal r); cbn [negb map joined];
        rewrite IH by lia; unfold interimText, finalText, segmentText;
        now rewrite append_assoc.
    + rewrite (skipn_nth_none _ _ Hnth).
      unfold interimText, finalText. simpl. now rewrite !append_nil_r.
Qed.

Lemma onresult_spec (ev : SpeechRecognitionEvent) (c : Component) :
  onresult ev c = (withTranscript (transcript c ++ finalText (delivered ev)) c, []).
Proof.
  unfold onresult, delivered.
  rewrite onresult_loop_spec by lia. reflexivity.
Qed.

Lemma step_result (ev : SpeechRecognitionEvent) (c : Component) :
  hasRecognition c = true ->
  step c (result ev)
  = (withTranscript (transcript c ++ finalText (delivered ev)) c, []).
Proof.
  unfold hasRecognition, step, dispatch. intros H.
  destruct (recognitionRef c); [|discriminate].
  rewrite onresult_spec. cbn [withTranscript isListening].
  now rewrite eqb_reflx.
Qed.

Lemma finalText_app (l1 l2 : list SpeechRecognitionResult) :
  finalText (l1 ++ l2) = finalText l1 ++ finalText l2.
Proof. unfold finalText. now rewrite filter_app, map_app, joined_app. Qed.

Lemma run_results (evs : list SpeechRecognitionEvent) :
  forall c : Component,
    hasRecognition c = true ->
    run c (map result evs)
    = (withTranscript (transcript c ++ finalText (flat_map delivered evs)) c, []).
Proof.
  induction evs as [|ev evs IH]; intros c H.
  - cbn. rewrite append_nil_r. now destruct c.
  - cbn [map run flat_map]. rewrite (step_result ev c H).
    rewrite IH by exact H. cbn [withTranscript transcript app].
    now rewrite finalText_app, append_assoc.
Qed.

End Results.

(** A run in which the capability resends its whole result list and
    marks the changed part with [resultIndex]: the first segment, already
    appended, is not appended again. *)
Example cumulative_results :
  transcript
    (fst (run (fst (session chrome [toggleListening]))
            [result {| resultIndex := 0;
                       results := [segment "Hello " true; segment "wor" false] |};
             result {| resultIndex := 1;
                       results := [segment "Hello " true;
                                   segment "world." true] |}]))
  = "Hello world.".
Proof. reflexivity. Qed.

(** A late result, delivered after the user stopped, is appended too. *)
Example late_result_after_stop :
  fst (session chrome [toggleListening; toggleListening;
                       result (batch [segment "bye" true])])
  = withTranscript "bye" (fst (mount chrome)).
Proof. reflexivity. Qed.

(** C1. For every sequence of "result" notifications delivered to a
    controller that owns a recognition object (in particular while
    Listening), the transcript afterwards is the transcript before followed
    by the concatenation, in arrival order, of exactly the delivered
    segments marked final; starting from an empty transcript it is that
    concatenation.  Segments not marked final contribute nothing, no
    browser call is made, and the session state is unchanged. *)
Theorem results_accumulate_final_segments :
  forall (c : Component) (evs : list SpeechRecognitionEvent),
    hasRecognition c = true ->
    transcript (fst (run c (map result evs)))
    = transcript c
      ++ joined (map segmentText (filter isFinal (flat_map delivered evs)))
    /\ (transcript c = "" ->
        transcript (fst (run c (map result evs)))
        = joined (map segmentText (filter isFinal (flat_map delivered evs))))
    /\ sessionState (fst (run c (map result evs))) = sessionState c
    /\ snd (run c (map result evs)) = [].
Proof.
  intros c evs H. rewrite (run_results evs c H). cbn [fst snd].
  repeat split.
  - intros Hempty. cbn [withTranscript transcript]. now rewrite Hempty.
Qed.

(** The scenario of the specification, run from mount: two notifications,
    the first with a final and an interim segment. *)
Lemma results_accumulate_final_segments_witness :
  transcript
    (fst (run (fst (session chrome [toggleListening]))
            (map result [batch [segment "Hello " true; segment "wor" false];
                         batch [segment "world." true]])))
  = "Hello world.".
Proof.
  destruct (results_accumulate_final_segments
              (fst (session chrome [toggleListening]))
              [batch [segment "Hello " true; segment "wor" false];
               batch [segment "world." true]] eq_refl)
    as (_ & Hfresh & _).
  exact (Hfresh eq_refl).
Defined.

(** ** Error and end notifications *)

Section Notifications.

Lemma prefix_of_app (a b : string) : String.prefix a (a ++ b) = true.
Proof.
  induction a as [|ch a IH]; simpl.
  - now destruct b.
  - destruct (ascii_dec ch ch) as [_|Hne]; [exact IH | now elim Hne].
Qed.

Lemma step_errored (ev : SpeechRecognitionErrorEvent) (c : Component) :
  hasRecognition c = true ->
  step c (errored ev)
  = ({| isListening := false;
        transcript := transcript c;
        runInBackground := runInBackground c;
        recognitionRef := recognitionRef c |},
     [ConsoleError "Speech recognition error" (error ev);
      ShowToast (errorToast ev)]
     ++ (if isListening c then [RecognitionStop] else []))%list.
Proof.
  unfold hasRecognition, step, dispatch, listeningEffect, hasRecognition.
  destruct c as [l t b [r|]]; cbn; [|discriminate].
  intros _. now destruct l.
Qed.

Lemma listeningEffect_state (c : Component) : fst (listeningEffect c) = c.
Proof.
  unfold listeningEffect.
  now destruct (isListening c), (hasRecognition c).
Qed.

(** Re-rendering keeps whatever the handler left in the hook state. *)
Lemma dispatch_state (c : Component) (handler : Action) :
  fst (dispatch c handler) = fst (handler c).
Proof.
  unfold dispatch. destruct (handler c) as [c' t]. cbn [fst].
  destruct (Bool.eqb (isListening c) (isListening c')); [reflexivity|].
  pose proof (listeningEffect_state c') as H.
  now destruct (listeningEffect c').
Qed.

(** No step replaces the recognition object. *)
Lemma step_recognitionRef (c : Component) (e : Event) :
  recognitionRef (fst (step c e)) = recognitionRef c.
Proof.
  destruct e as [| |now| |checked|ev|ev|]; unfold step;
    try (destruct (recognitionRef c) as [r|] eqn:Href; [|exact Href]);
    rewrite dispatch_state.
  - reflexivity.
  - unfold handleCopyText. now destruct (JS.truthy (transcript c)).
  - unfold handleDownloadText. now destruct (JS.truthy (transcript c)).
  - reflexivity.
  - reflexivity.
  - now rewrite onresult_spec.
  - exact Href.
  - unfold onend, startCurrent.
    now destruct (onend_isListening r), (hasRecognition c).
Qed.

Lemma run_recognitionRef (es : list Event) :
  forall c : Component, recognitionRef (fst (run c es)) = recognitionRef c.
Proof.
  induction es as [|e es IH]; intros c; cbn [run]; [reflexivity|].
  destruct (step c e) as [c1 t1] eqn:Hstep.
  specialize (IH c1). destruct (run c1 es) as [c2 t2]. cbn [fst] in *.
  rewrite IH. now rewrite <- (step_recognitionRef c e), Hstep.
Qed.

Lemma mount_recognitionRef (w : Window) :
  recognitionRef (fst (mount w))
  = if unsupported w then None
    else Some {| ctor := if has_SpeechRecognition w then StandardCtor
                         else WebkitCtor;
                 continuous := true;
                 interimResults := true;
                 lang := "en-US";
                 onend_isListening := false |}.
Proof.
  unfold mount, mountEffect, unsupported, seq.
  now destruct (has_webkitSpeechRecognition w), (has_SpeechRecognition w).
Qed.

Lemma session_recognitionRef (w : Window) (es : list Event) :
  recognitionRef (fst (session w es)) = recognitionRef (fst (mount w)).
Proof.
  unfold session. destruct (mount w) as [c0 t0].
  pose proof (run_recognitionRef es c0) as H.
  destruct (run c0 es) as [c t]. exact H.
Qed.

(** Every state of every session has a stale [onend] closure. *)
Lemma session_staleOnEnd (w : Window) (es : list Event) :
  staleOnEnd (fst (session w es)).
Proof.
  unfold staleOnEnd.
  rewrite session_recognitionRef, mount_recognitionRef.
  now destruct (unsupported w).
Qed.

(** With a stale closure an "ended" notification does nothing at all. *)
Lemma stale_ended_is_silent (c : Component) :
  staleOnEnd c -> step c ended = (c, []).
Proof.
  unfold staleOnEnd, step, dispatch, onend.
  destruct (recognitionRef c) as [r|]; [|reflexivity].
  intros ->. cbn. now rewrite eqb_reflx.
Qed.

(** In no session does an "ended" notification restart the capability. *)
Lemma ended_never_restarts (w : Window) (es : list Event) :
  step (fst (session w es)) ended = (fst (session w es), []).
Proof. apply stale_ended_is_silent, session_staleOnEnd. Qed.

End Notifications.

(** C2 (the code departs from the claim).  Mount in a browser with speech
    recognition, press the button, then let the capability end on its own:
    the controller is Listening, the "ended" notification finds the
    [isListening] binding of the first render ([false]) in its closure,
    and no [start()] is issued; the whole session has issued exactly the
    one [start()] of the button press. *)
Theorem ended_while_listening_issues_no_start :
  sessionState (fst (session chrome [toggleListening])) = Listening
  /\ step (fst (session chrome [toggleListening])) ended
     = (fst (session chrome [toggleListening]), [])
  /\ sessionState (fst (session chrome [toggleListening; ended])) = Listening
  /\ snd (session chrome [toggleListening; ended])
     = [RecognitionStop; RecognitionStart].
Proof. repeat split. Qed.

(** C3. In every state that owns a recognition object, an error
    notification leaves the controller Idle and shows a toast whose
    description contains the error code: it is the fixed text
    "Speech recognition error: " followed by the code. *)
Theorem error_forces_idle_and_is_surfaced :
  forall (c : Component) (ev : SpeechRecognitionErrorEvent),
    hasRecognition c = true ->
    sessionState (fst (step c (errored ev))) = Idle
    /\ exists t : Toast,
         In (ShowToast t) (snd (step c (errored ev)))
         /\ title t = "Error"
         /\ description t = "Speech recognition error: " ++ error ev.
Proof.
  intros c ev H. rewrite (step_errored ev c H). cbn [fst snd]. split.
  - reflexivity.
  - exists (errorToast ev). repeat split.
    + right. left. reflexivity.
Qed.

Lemma error_forces_idle_and_is_surfaced_witness :
  sessionState
    (fst (step (fst (session chrome [toggleListening]))
            (errored {| error := "no-speech" |}))) = Idle
  /\ In (ShowToast {| title := "Error";
                      description := "Speech recognition error: no-speech";
                      variant := Some Destructive |})
        (snd (step (fst (session chrome [toggleListening]))
                (errored {| error := "no-speech" |}))).
Proof.
  destruct (error_forces_idle_and_is_surfaced
              (fst (session chrome [toggleListening]))
              {| error := "no-speech" |} eq_refl) as [Hidle _].
  split; [exact Hidle | right; left; reflexivity].
Defined.

(** C10. In every state, handling an error notification leaves the
    transcript (and the background flag and the recognition object) as
    they were; only the listening flag can change. *)
Theorem error_keeps_transcript :
  forall (c : Component) (ev : SpeechRecognitionErrorEvent),
    transcript (fst (step c (errored ev))) = transcript c
    /\ runInBackground (fst (step c (errored ev))) = runInBackground c
    /\ recognitionRef (fst (step c (errored ev))) = recognitionRef c.
Proof.
  intros c ev. destruct (hasRecognition c) eqn:H.
  - rewrite (step_errored ev c H). cbn [fst]. repeat split.
  - unfold hasRecognition in H. unfold step.
    destruct (recognitionRef c) eqn:Href; [discriminate|].
    cbn [fst]. repeat split. exact Href.
Qed.

(** ** Click handlers *)

Section Clicks.

(** A handler that leaves [isListening] alone triggers no effect on
    re-render. *)
Lemma dispatch_same (c : Component) (handler : Action) :
  isListening (fst (handler c)) = isListening c ->
  dispatch c handler = handler c.
Proof.
  unfold dispatch. destruct (handler c) as [c' t]. cbn [fst].
  intros ->. now rewrite eqb_reflx.
Qed.

Lemma step_toggle (c : Component) :
  step c toggleListening
  = ({| isListening := negb (isListening c);
        transcript := transcript c;
        runInBackground := runInBackground c;
        recognitionRef := recognitionRef c |},
     if hasRecognition c
     then [if isListening c then RecognitionStop else RecognitionStart]
     else []).
Proof.
  unfold step, dispatch, handleToggleListening, listeningEffect,
    hasRecognition.
  now destruct c as [[|] t b [r|]].
Qed.

Lemma step_copy (c : Component) :
  step c copyTranscript
  = (c, if JS.truthy (transcript c)
        then [ClipboardWriteText (transcript c); ShowToast copiedToast]
        else []).
Proof.
  unfold step. rewrite dispatch_same;
    unfold handleCopyText; now destruct (JS.truthy (transcript c)).
Qed.

Lemma step_download (now : JS.Date) (c : Component) :
  step c (downloadTranscript now)
  = (c, if JS.truthy (transcript c)
        then
          let file :=
            {| blobParts := [transcript c]; blob_type := "text/plain" |} in
          let element :=
            {| href := file;
               download := "transcript-" ++ JS.isoDate now ++ ".txt" |} in
          [CreateObjectURL file; BodyAppendChild element;
           AnchorClick element; BodyRemoveChild element]
        else []).
Proof.
  unfold step. rewrite dispatch_same;
    unfold handleDownloadText; destruct (JS.truthy (transcript c));
    try reflexivity.
  rewrite downloadName_date. reflexivity.
Qed.

Lemma step_clear (c : Component) :
  step c clearTranscript = (withTranscript "" c, []).
Proof. unfold step. now rewrite dispatch_same. Qed.

Lemma step_background (checked : bool) (c : Component) :
  step c (toggleBackground checked)
  = ({| isListening := isListening c;
        transcript := transcript c;
        runInBackground := checked;
        recognitionRef := recognitionRef c |}, []).
Proof. unfold step. now rewrite dispatch_same. Qed.

Lemma truthy_empty (s : string) : JS.truthy s = false <-> s = "".
Proof. destruct s; simpl; split; congruence. Qed.

Lemma truthy_nonempty (s : string) : JS.truthy s = true <-> s <> "".
Proof. destruct s; simpl; split; congruence. Qed.

End Clicks.

(** ** Traces *)

Section Traces.

Lemma occurrences_app (p : Effect -> bool) (t1 t2 : list Effect) :
  occurrences p (t1 ++ t2) = occurrences p t1 + occurrences p t2.
Proof. unfold occurrences. now rewrite filter_app, length_app. Qed.

(** Without a recognition object a step never starts the capability,
    and it never shows the "not supported" toast. *)
Lemma step_without_recognition (c : Component) (e : Event) :
  recognitionRef c = None ->
  occurrences isStart (snd (step c e)) = 0
  /\ occurrences isNotSupportedToast (snd (step c e)) = 0.
Proof.
  intros Href.
  destruct e as [| |now| |checked|ev|ev|].
  - rewrite step_toggle. unfold hasRecognition. now rewrite Href.
  - rewrite step_copy. now destruct (JS.truthy (transcript c)).
  - rewrite step_download. now destruct (JS.truthy (transcript c)).
  - now rewrite step_clear.
  - now rewrite step_background.
  - unfold step. now rewrite Href.
  - unfold step. now rewrite Href.
  - unfold step. now rewrite Href.
Qed.

Lemma run_without_recognition (es : list Event) :
  forall c : Component,
    recognitionRef c = None ->
    occurrences isStart (snd (run c es)) = 0
    /\ occurrences isNotSupportedToast (snd (run c es)) = 0.
Proof.
  induction es as [|e es IH]; intros c Href; cbn [run].
  - now split.
  - pose proof (step_without_recognition c e Href) as [Hs Ht].
    pose proof (step_recognitionRef c e) as Hkeep.
    destruct (step c e) as [c1 t1]. cbn [fst snd] in *.
    rewrite Href in Hkeep.
    destruct (IH c1 Hkeep) as [Hs' Ht'].
    destruct (run c1 es) as [c2 t2]. cbn [snd] in *.
    rewrite !occurrences_app. lia.
Qed.

Lemma mount_unsupported (w : Window) :
  unsupported w = true -> mount w = (initial, [ShowToast notSupportedToast]).
Proof.
  unfold unsupported, mount, mountEffect, seq. intros ->. reflexivity.
Qed.

End Traces.

(** ** Growth of the transcript *)

Section Growth.

Lemma step_ended_state (c : Component) : fst (step c ended) = c.
Proof.
  unfold step. destruct (recognitionRef c) as [r|]; [|reflexivity].
  rewrite dispatch_state. unfold onend, startCurrent.
  now destruct (onend_isListening r), (hasRecognition c).
Qed.

(** What a step appends to the transcript. *)
Lemma step_transcript (c : Component) (e : Event) :
  transcript (fst (step c e))
  = match e with
    | clearTranscript => ""
    | result ev =>
        if hasRecognition c
        then transcript c ++ finalText (delivered ev)
        else transcript c
    | _ => transcript c
    end.
Proof.
  destruct e as [| |now| |checked|ev|ev|].
  - now rewrite step_toggle.
  - now rewrite step_copy.
  - now rewrite step_download.
  - now rewrite step_clear.
  - now rewrite step_background.
  - destruct (hasRecognition c) eqn:H.
    + now rewrite step_result.
    + unfold hasRecognition in H. unfold step.
      now destruct (recognitionRef c).
  - destruct (hasRecognition c) eqn:H.
    + now rewrite step_errored.
    + unfold hasRecognition in H. unfold step.
      now destruct (recognitionRef c).
  - now rewrite step_ended_state.
Qed.

Lemma step_grows (c : Component) (e : Event) :
  e <> clearTranscript ->
  exists suffix : string, transcript (fst (step c e)) = transcript c ++ suffix.
Proof.
  intros Hclear. rewrite step_transcript.
  destruct e as [| |now| |checked|ev|ev|];
    try (exists ""; now rewrite append_nil_r).
  destruct (hasRecognition c).
  - now exists (finalText (delivered ev)).
  - exists "". now rewrite append_nil_r.
Qed.

(** Over any run without a Clear the transcript only gets longer. *)
Lemma run_grows (es : list Event) :
  forall c : Component,
    ~ In clearTranscript es ->
    exists suffix : string,
      transcript (fst (run c es)) = transcript c ++ suffix.
Proof.
  induction es as [|e es IH]; intros c Hno; cbn [run].
  - exists "". now rewrite append_nil_r.
  - assert (He : e <> clearTranscript)
      by (intros ->; apply Hno; now left).
    destruct (step_grows c e He) as [s1 Hs1].
    destruct (step c e) as [c1 t1]. cbn [fst] in Hs1.
    destruct (IH c1 (fun H => Hno (or_intror H))) as [s2 Hs2].
    destruct (run c1 es) as [c2 t2]. cbn [fst] in *.
    exists (s1 ++ s2). now rewrite Hs2, Hs1, append_assoc.
Qed.

End Growth.

(** C4, as stated, fails: without a recognition capability the first
    press of the button still moves the controller to Listening. *)
Lemma unsupported_toggle_reaches_listening :
  unsupported noSpeech = true
  /\ sessionState (fst (session noSpeech [])) = Idle
  /\ sessionState (fst (session noSpeech [toggleListening])) = Listening
  /\ sessionState (fst (session noSpeech [toggleListening])) <> Idle.
Proof. repeat split. discriminate. Qed.

(** C4, amended.  When [window] offers no recognition capability, no
    session ever invokes [start()], the "not supported" toast is shown
    exactly once (by the mount effect), and a press of the button only
    flips the listening flag: it makes no browser call and leaves the
    transcript alone. *)
Theorem unsupported_never_starts :
  forall (w : Window) (es : list Event),
    unsupported w = true ->
    occurrences isStart (snd (session w es)) = 0
    /\ occurrences isNotSupportedToast (snd (session w es)) = 1
    /\ recognitionRef (fst (session w es)) = None
    /\ step (fst (session w es)) toggleListening
       = ({| isListening := negb (isListening (fst (session w es)));
             transcript := transcript (fst (session w es));
             runInBackground := runInBackground (fst (session w es));
             recognitionRef := None |}, []).
Proof.
  intros w es Hw.
  assert (Href : recognitionRef (fst (session w es)) = None).
  { rewrite session_recognitionRef, mount_recognitionRef. now rewrite Hw. }
  assert (Htrace : occurrences isStart (snd (session w es)) = 0
                   /\ occurrences isNotSupportedToast (snd (session w es)) = 1).
  { unfold session. rewrite (mount_unsupported w Hw).
    destruct (run_without_recognition es initial eq_refl) as [Hs Ht].
    destruct (run initial es) as [c t]. cbn [snd] in *.
    rewrite !occurrences_app, Hs, Ht. now split. }
  destruct Htrace as [Hs Ht]. repeat split; try assumption.
  rewrite step_toggle. unfold hasRecognition. now rewrite Href.
Qed.

Lemma unsupported_never_starts_witness :
  occurrences isStart
    (snd (session noSpeech [toggleListening; copyTranscript; toggleListening])) = 0
  /\ occurrences isNotSupportedToast
       (snd (session noSpeech [toggleListening; copyTranscript; toggleListening])) = 1.
Proof.
  destruct (unsupported_never_starts noSpeech
              [toggleListening; copyTranscript; toggleListening] eq_refl)
    as (Hs & Ht & _).
  split; [exact Hs | exact Ht].
Defined.

(** C5. In every state, every operation other than Clear leaves the old
    transcript as a prefix of the new one; what is appended is empty
    unless the operation is a "result" notification, in which case it is
    the concatenation of the delivered segments marked final; and Clear
    resets the transcript to the empty string. *)
Theorem transcript_only_grows :
  forall (c : Component) (e : Event),
    (e <> clearTranscript ->
     String.prefix (transcript c) (transcript (fst (step c e))) = true
     /\ exists suffix : string,
          transcript (fst (step c e)) = transcript c ++ suffix)
    /\ (e <> clearTranscript -> (forall ev, e <> result ev) ->
        transcript (fst (step c e)) = transcript c)
    /\ (forall ev, e = result ev -> hasRecognition c = true ->
        transcript (fst (step c e))
        = transcript c ++ joined (map segmentText (filter isFinal (delivered ev))))
    /\ transcript (fst (step c clearTranscript)) = "".
Proof.
  intros c e. split; [|split; [|split]].
  - intros Hclear. destruct (step_grows c e Hclear) as [suffix Hsuffix].
    split; [|now exists suffix].
    rewrite Hsuffix. apply prefix_of_app.
  - intros Hclear Hresult. rewrite step_transcript.
    destruct e as [| |now| |checked|ev|ev|]; try reflexivity.
    + now elim Hclear.
    + now elim (Hresult ev).
  - intros ev -> H. rewrite step_transcript. now rewrite H.
  - now rewrite step_transcript.
Qed.

Lemma transcript_only_grows_witness :
  String.prefix "Hello "
    (transcript
       (fst (step (withTranscript "Hello " (fst (session chrome [toggleListening])))
               (result (batch [segment "wor" false; segment "world." true])))))
  = true.
Proof.
  destruct (transcript_only_grows
              (withTranscript "Hello " (fst (session chrome [toggleListening])))
              (result (batch [segment "wor" false; segment "world." true])))
    as [Hgrow _].
  destruct (Hgrow ltac:(discriminate)) as [Hprefix _].
  exact Hprefix.
Defined.

(** C6. In every state Clear sets the transcript to the empty string,
    touches nothing else and makes no browser call; a second Clear right
    after the first changes nothing more. *)
Theorem clear_resets_and_is_idempotent :
  forall c : Component,
    transcript (fst (step c clearTranscript)) = ""
    /\ step c clearTranscript
       = ({| isListening := isListening c;
             transcript := "";
             runInBackground := runInBackground c;
             recognitionRef := recognitionRef c |}, [])
    /\ step (fst (step c clearTranscript)) clearTranscript
       = step c clearTranscript
    /\ run c [clearTranscript; clearTranscript] = run c [clearTranscript].
Proof.
  intros c. cbn [run]. repeat (rewrite !step_clear; cbn [fst]).
  repeat split.
Qed.

(** C7. From any Idle state, pressing the button (the controller becomes
    Listening) and pressing it again with nothing in between (it becomes
    Idle) gives back the very state it started from; in particular the
    transcript is the one before the first press. *)
Theorem toggle_on_off_keeps_transcript :
  forall c : Component,
    sessionState c = Idle ->
    sessionState (fst (step c toggleListening)) = Listening
    /\ sessionState (fst (run c [toggleListening; toggleListening])) = Idle
    /\ transcript (fst (run c [toggleListening; toggleListening]))
       = transcript c
    /\ fst (run c [toggleListening; toggleListening]) = c.
Proof.
  intros c Hidle. cbn [run]. rewrite step_toggle. cbn [fst].
  rewrite step_toggle. cbn [fst isListening transcript runInBackground
                                recognitionRef].
  unfold sessionState in *. destruct c as [[|] t b r]; cbn in *;
    [discriminate | repeat split].
Qed.

Lemma toggle_on_off_keeps_transcript_witness :
  transcript
    (fst (run (withTranscript "Hello world." (fst (session chrome [])))
            [toggleListening; toggleListening]))
  = "Hello world.".
Proof.
  destruct (toggle_on_off_keeps_transcript
              (withTranscript "Hello world." (fst (session chrome [])))
              eq_refl) as (_ & _ & Hsame & _).
  exact Hsame.
Defined.

(** C8. Copy never changes the hook state (transcript, listening flag,
    background flag, recognition object).  With an empty transcript it
    does nothing at all; with a non-empty one it writes the whole
    transcript to the clipboard (and then shows the "Copied" toast). *)
Theorem copy_writes_whole_transcript :
  forall c : Component,
    fst (step c copyTranscript) = c
    /\ (transcript c = "" -> step c copyTranscript = (c, []))
    /\ (transcript c <> "" ->
        snd (step c copyTranscript)
        = [ClipboardWriteText (transcript c); ShowToast copiedToast]).
Proof.
  intros c. rewrite step_copy. cbn [fst snd]. split; [|split].
  - reflexivity.
  - intros H. apply truthy_empty in H. now rewrite H.
  - intros H. apply truthy_nonempty in H. now rewrite H.
Qed.

Lemma copy_writes_whole_transcript_witness :
  step initial copyTranscript = (initial, [])
  /\ snd (step (withTranscript "Hello world." initial) copyTranscript)
     = [ClipboardWriteText "Hello world."; ShowToast copiedToast].
Proof.
  split.
  - destruct (copy_writes_whole_transcript initial) as (_ & Hempty & _).
    exact (Hempty eq_refl).
  - destruct (copy_writes_whole_transcript (withTranscript "Hello world." initial))
      as (_ & _ & Hfull).
    exact (Hfull ltac:(discriminate)).
Defined.

(** C9. Download never changes the hook state.  With an empty transcript
    it does nothing at all; with a non-empty one it builds a [text/plain]
    blob holding the whole transcript and clicks a temporary link whose
    suggested file name is "transcript-", the current UTC date as
    YYYY-MM-DD, then ".txt". *)
Theorem download_saves_dated_text_file :
  forall (now : JS.Date) (c : Component),
    fst (step c (downloadTranscript now)) = c
    /\ (transcript c = "" -> step c (downloadTranscript now) = (c, []))
    /\ (transcript c <> "" ->
        exists element : Anchor,
          snd (step c (downloadTranscript now))
          = [CreateObjectURL (href element); BodyAppendChild element;
             AnchorClick element; BodyRemoveChild element]
          /\ href element
             = {| blobParts := [transcript c]; blob_type := "text/plain" |}
          /\ download element
             = "transcript-"
                 ++ (JS.isoYear (JS.year now) ++ "-" ++ JS.pad 2 (JS.month now)
                       ++ "-" ++ JS.pad 2 (JS.day now))
                 ++ ".txt").
Proof.
  intros now c. rewrite step_download. cbn [fst snd]. split; [|split].
  - reflexivity.
  - intros H. apply truthy_empty in H. now rewrite H.
  - intros H. apply truthy_nonempty in H. rewrite H.
    exists {| href := {| blobParts := [transcript c];
                         blob_type := "text/plain" |};
              download := "transcript-" ++ JS.isoDate now ++ ".txt" |}.
    split; [reflexivity | split; reflexivity].
Qed.

Lemma download_saves_dated_text_file_witness :
  step initial (downloadTranscript someDay) = (initial, [])
  /\ exists element : Anchor,
       In (AnchorClick element)
          (snd (step (withTranscript "Hello world." initial)
                  (downloadTranscript someDay)))
       /\ href element
          = {| blobParts := ["Hello world."]; blob_type := "text/plain" |}
       /\ download element = "transcript-2024-03-09.txt".
Proof.
  split.
  - destruct (download_saves_dated_text_file someDay initial)
      as (_ & Hempty & _).
    exact (Hempty eq_refl).
  - destruct (download_saves_dated_text_file someDay
                (withTranscript "Hello world." initial)) as (_ & _ & Hfull).
    destruct (Hfull ltac:(discriminate)) as (element & Htrace & Hhref & Hname).
    exists element. rewrite Htrace. repeat split.
    + right. right. left. reflexivity.
    + exact Hhref.
    + exact Hname.
Defined.


(** * Whole sessions *)

Section Sessions.

Lemma run_app (es1 es2 : list Event) :
  forall c : Component,
    run c (es1 ++ es2)
    = let (c1, t1) := run c es1 in
      let (c2, t2) := run c1 es2 in
      (c2, (t1 ++ t2)%list).
Proof.
  induction es1 as [|e es1 IH]; intros c; cbn [app run].
  - now destruct (run c es2).
  - destruct (step c e) as [c1 t1]. rewrite IH.
    destruct (run c1 es1) as [c2 t2]. destruct (run c2 es2) as [c3 t3].
    now rewrite app_assoc.
Qed.

Lemma step_hasRecognition (c : Component) (e : Event) :
  hasRecognition (fst (step c e)) = hasRecognition c.
Proof. unfold hasRecognition. now rewrite step_recognitionRef. Qed.

Lemma step_staleOnEnd (c : Component) (e : Event) :
  staleOnEnd c -> staleOnEnd (fst (step c e)).
Proof. unfold staleOnEnd. now rewrite step_recognitionRef. Qed.

Lemma run_staleOnEnd (es : list Event) :
  forall c : Component, staleOnEnd c -> staleOnEnd (fst (run c es)).
Proof. intros c. unfold staleOnEnd. now rewrite run_recognitionRef. Qed.

Lemma step_result_any (ev : SpeechRecognitionEvent) (c : Component) :
  step c (result ev)
  = if hasRecognition c
    then (withTranscript (transcript c ++ finalText (delivered ev)) c, [])
    else (c, []).
Proof.
  destruct (hasRecognition c) eqn:H.
  - now apply step_result.
  - unfold hasRecognition in H. unfold step.
    now destruct (recognitionRef c).
Qed.

Lemma step_errored_any (ev : SpeechRecognitionErrorEvent) (c : Component) :
  step c (errored ev)
  = if hasRecognition c
    then ({| isListening := false;
             transcript := transcript c;
             runInBackground := runInBackground c;
             recognitionRef := recognitionRef c |},
          [ConsoleError "Speech recognition error" (error ev);
           ShowToast (errorToast ev)]
          ++ (if isListening c then [RecognitionStop] else []))%list
    else (c, []).
Proof.
  destruct (hasRecognition c) eqn:H.
  - now apply step_errored.
  - unfold hasRecognition in H. unfold step.
    now destruct (recognitionRef c).
Qed.

Lemma step_ended (c : Component) :
  step c ended
  = match recognitionRef c with
    | Some r => if onend_isListening r then (c, [RecognitionStart]) else (c, [])
    | None => (c, [])
    end.
Proof.
  unfold step. destruct (recognitionRef c) as [r|] eqn:Href; [|reflexivity].
  rewrite dispatch_same; unfold onend;
    destruct (onend_isListening r); try reflexivity;
    unfold startCurrent, hasRecognition; now rewrite Href.
Qed.

Lemma mount_supported (w : Window) :
  unsupported w = false ->
  mount w
  = ({| isListening := false;
        transcript := "";
        runInBackground := false;
        recognitionRef := Some (mountedRecognition w) |}, [RecognitionStop]).
Proof.
  unfold unsupported, mount, mountEffect, seq. intros ->. reflexivity.
Qed.

Lemma withTranscript_same (c : Component) : withTranscript (transcript c) c = c.
Proof. now destruct c. Qed.

Lemma finalText_interim (segs : list SpeechRecognitionResult) :
  forallb (fun r => negb (isFinal r)) segs = true -> finalText segs = "".
Proof.
  unfold finalText. induction segs as [|r segs IH]; cbn [forallb filter].
  - reflexivity.
  - intros H. apply andb_true_iff in H as [Hr Hsegs].
    apply negb_true_iff in Hr. rewrite Hr. now apply IH.
Qed.

(** The transcript after a run, read off the events alone. *)
Lemma run_transcript (es : list Event) :
  forall c : Component,
    hasRecognition c = true ->
    transcript (fst (run c es))
    = match afterLastClear es with
      | Some tail => finalText (resultBatches tail)
      | None => transcript c ++ finalText (resultBatches es)
      end.
Proof.
  induction es as [|e es IH]; intros c H.
  - cbn. now rewrite append_nil_r.
  - cbn [run afterLastClear].
    pose proof (step_transcript c e) as Hstep.
    pose proof (step_hasRecognition c e) as Hkeep.
    destruct (step c e) as [c1 t1]. cbn [fst] in Hstep, Hkeep.
    rewrite H in Hkeep. specialize (IH c1 Hkeep).
    destruct (run c1 es) as [c2 t2]. cbn [fst] in *.
    rewrite IH. destruct (afterLastClear es) as [tail|]; [reflexivity|].
    rewrite Hstep.
    destruct e as [| |now| |checked|ev|ev|]; cbn [isClear resultBatches flat_map app];
      try reflexivity.
    rewrite H. fold (resultBatches es).
    now rewrite finalText_app, append_assoc.
Qed.

End Sessions.

(** X1. In a browser with speech recognition, whatever the user and the
    capability do and in whatever order, the transcript at the end of a
    session is the concatenation of the segments marked final that the
    "result" notifications delivered since the last Clear (since mount,
    when there was no Clear). *)
Theorem session_transcript_is_finals_since_clear :
  forall (w : Window) (es : list Event),
    unsupported w = false ->
    transcript (fst (session w es))
    = joined (map segmentText
                (filter isFinal (resultBatches (sinceLastClear es)))).
Proof.
  intros w es Hw. unfold session. rewrite (mount_supported w Hw).
  pose proof (run_transcript es
                {| isListening := false;
                   transcript := "";
                   runInBackground := false;
                   recognitionRef := Some (mountedRecognition w) |} eq_refl)
    as Hrun.
  destruct (run _ es) as [c t]. cbn [fst transcript] in *.
  rewrite Hrun. unfold sinceLastClear.
  now destruct (afterLastClear es).
Qed.

Lemma session_transcript_is_finals_since_clear_witness :
  transcript
    (fst (session chrome
            [toggleListening; result (batch [segment "one " true]);
             clearTranscript; result (batch [segment "tw" false]);
             errored {| error := "network" |};
             result (batch [segment "two " true; segment "three" true]);
             copyTranscript]))
  = "two three".
Proof.
  exact (session_transcript_is_finals_since_clear chrome
           [toggleListening; result (batch [segment "one " true]);
            clearTranscript; result (batch [segment "tw" false]);
            errored {| error := "network" |};
            result (batch [segment "two " true; segment "three" true]);
            copyTranscript] eq_refl).
Defined.

(** X9. A "result" notification that delivers no segment marked final
    (only interim ones, an empty list, or a [resultIndex] at or past the
    end of [results]) changes nothing and makes no browser call. *)
Theorem interim_only_result_changes_nothing :
  forall (c : Component) (ev : SpeechRecognitionEvent),
    forallb (fun r => negb (isFinal r))
      (skipn (resultIndex ev) (results ev)) = true ->
    step c (result ev) = (c, []).
Proof.
  intros c ev H. rewrite step_result_any.
  destruct (hasRecognition c); [|reflexivity].
  unfold delivered. rewrite (finalText_interim _ H), append_nil_r.
  now rewrite withTranscript_same.
Qed.

Lemma interim_only_result_changes_nothing_witness :
  step (withTranscript "Hello " (fst (session chrome [toggleListening])))
    (result {| resultIndex := 1;
               results := [segment "Hello " true; segment "wor" false] |})
  = (withTranscript "Hello " (fst (session chrome [toggleListening])), [])
  /\ step (fst (session chrome [toggleListening]))
       (result {| resultIndex := 7; results := [segment "late" true] |})
     = (fst (session chrome [toggleListening]), []).
Proof.
  split.
  - exact (interim_only_result_changes_nothing
             (withTranscript "Hello " (fst (session chrome [toggleListening])))
             {| resultIndex := 1;
                results := [segment "Hello " true; segment "wor" false] |}
             eq_refl).
  - exact (interim_only_result_changes_nothing
             (fst (session chrome [toggleListening]))
             {| resultIndex := 7; results := [segment "late" true] |}
             eq_refl).
Defined.

(** ** Calls to the capability *)

Section CapabilityCalls.

Lemma alternating_app (t1 t2 : list Effect) :
  forall expectStart : bool,
    alternating expectStart (t1 ++ t2)
    = match alternating expectStart t1 with
      | Some next => alternating next t2
      | None => None
      end.
Proof.
  induction t1 as [|x t1 IH]; intros expectStart; cbn [app alternating].
  - reflexivity.
  - destruct x, expectStart; now rewrite ?IH.
Qed.

(** One step keeps the calls in step with the listening flag. *)
Lemma step_alternates (c : Component) (e : Event) :
  hasRecognition c = true ->
  staleOnEnd c ->
  alternating (negb (isListening c)) (snd (step c e))
  = Some (negb (isListening (fst (step c e)))).
Proof.
  intros H Hstale.
  destruct e as [| |now| |checked|ev|ev|].
  - rewrite step_toggle, H. now destruct (isListening c).
  - rewrite step_copy. now destruct (JS.truthy (transcript c)).
  - rewrite step_download. now destruct (JS.truthy (transcript c)).
  - now rewrite step_clear.
  - now rewrite step_background.
  - now rewrite step_result_any, H.
  - rewrite step_errored_any, H. now destruct (isListening c).
  - rewrite (stale_ended_is_silent c Hstale). reflexivity.
Qed.

Lemma run_alternates (es : list Event) :
  forall c : Component,
    hasRecognition c = true ->
    staleOnEnd c ->
    alternating (negb (isListening c)) (snd (run c es))
    = Some (negb (isListening (fst (run c es)))).
Proof.
  induction es as [|e es IH]; intros c H Hstale; cbn [run].
  - reflexivity.
  - pose proof (step_alternates c e H Hstale) as Hstep.
    pose proof (step_hasRecognition c e) as Hkeep.
    pose proof (step_staleOnEnd c e Hstale) as Hstale'.
    destruct (step c e) as [c1 t1]. cbn [fst snd] in *.
    rewrite H in Hkeep. specialize (IH c1 Hkeep Hstale').
    destruct (run c1 es) as [c2 t2]. cbn [fst snd] in *.
    now rewrite alternating_app, Hstep.
Qed.

End CapabilityCalls.

(** X3. In a browser with speech recognition, the [start()] and [stop()]
    calls of any session come strictly in turn, beginning with the
    [stop()] the mount makes: never two [start()] without a [stop()]
    between them, never two [stop()] in a row.  The last call is
    [start()] exactly when the controller ends up Listening. *)
Theorem capability_calls_alternate :
  forall (w : Window) (es : list Event),
    unsupported w = false ->
    alternating false (snd (session w es))
    = Some (negb (isListening (fst (session w es)))).
Proof.
  intros w es Hw. unfold session. rewrite (mount_supported w Hw).
  pose proof (run_alternates es
                {| isListening := false;
                   transcript := "";
                   runInBackground := false;
                   recognitionRef := Some (mountedRecognition w) |}
                eq_refl eq_refl) as Hrun.
  destruct (run _ es) as [c t]. cbn [fst snd isListening negb] in *.
  change ([RecognitionStop] ++ t)%list with (RecognitionStop :: t).
  cbn [alternating]. exact Hrun.
Qed.

Lemma capability_calls_alternate_witness :
  alternating false
    (snd (session chrome
            [toggleListening; errored {| error := "no-speech" |};
             errored {| error := "aborted" |}; toggleListening; ended]))
  = Some false.
Proof.
  exact (capability_calls_alternate chrome
           [toggleListening; errored {| error := "no-speech" |};
            errored {| error := "aborted" |}; toggleListening; ended]
           eq_refl).
Defined.

(** X4. "ended" notifications never matter: taking one out of a session,
    wherever it stands, leaves the final state and the whole trace of
    browser calls as they were.  (The [onend] closure always reads the
    first render's [isListening].) *)
Theorem ended_can_be_dropped :
  forall (w : Window) (before after : list Event),
    session w (before ++ ended :: after) = session w (before ++ after).
Proof.
  intros w before after. unfold session.
  pose proof (session_staleOnEnd w before) as Hstale. unfold session in Hstale.
  destruct (mount w) as [c0 t0].
  rewrite !run_app. destruct (run c0 before) as [c1 t1]. cbn [fst] in Hstale.
  cbn [run]. rewrite (stale_ended_is_silent c1 Hstale).
  now destruct (run c1 after).
Qed.

(** X5. At most one recognition object exists per session: it is built
    by the mount effect exactly when [window] has one of the two
    constructors (the standard one is taken when both are there), set to
    continuous mode with interim results and the en-US locale, and no
    event ever replaces or drops it. *)
Theorem recognition_created_once :
  forall (w : Window) (es : list Event),
    recognitionRef (fst (session w es))
    = if has_SpeechRecognition w || has_webkitSpeechRecognition w
      then Some {| ctor := if has_SpeechRecognition w then StandardCtor
                           else WebkitCtor;
                   continuous := true;
                   interimResults := true;
                   lang := "en-US";
                   onend_isListening := false |}
      else None.
Proof.
  intros w es. rewrite session_recognitionRef, mount_recognitionRef.
  unfold unsupported.
  now destruct (has_SpeechRecognition w), (has_webkitSpeechRecognition w).
Qed.

(** X6. Tearing the component down after any session calls [stop()] once
    when a recognition object was created, whether the controller is
    Listening or Idle, and calls nothing in a browser without speech
    recognition; the hook state is left as it was. *)
Theorem unmount_stops_capability :
  forall (w : Window) (es : list Event),
    unmountCleanup (fst (session w es))
    = (fst (session w es),
       if unsupported w then [] else [RecognitionStop]).
Proof.
  intros w es. unfold unmountCleanup, hasRecognition.
  rewrite session_recognitionRef, mount_recognitionRef.
  now destruct (unsupported w).
Qed.

(** ** Browsers without speech recognition *)

Section Unsupported.

Lemma step_silent_without_recognition (c : Component) (e : Event) :
  recognitionRef c = None ->
  transcript c = "" ->
  snd (step c e) = [] /\ transcript (fst (step c e)) = "".
Proof.
  intros Href Hempty.
  assert (H : hasRecognition c = false)
    by (unfold hasRecognition; now rewrite Href).
  destruct e as [| |now| |checked|ev|ev|].
  - rewrite step_toggle, H. now split.
  - rewrite step_copy, Hempty. now split.
  - rewrite step_download, Hempty. now split.
  - rewrite step_clear. now split.
  - rewrite step_background. now split.
  - rewrite step_result_any, H. now split.
  - rewrite step_errored_any, H. now split.
  - rewrite step_ended, Href. now split.
Qed.

Lemma run_silent_without_recognition (es : list Event) :
  forall c : Component,
    recognitionRef c = None ->
    transcript c = "" ->
    snd (run c es) = [] /\ transcript (fst (run c es)) = "".
Proof.
  induction es as [|e es IH]; intros c Href Hempty; cbn [run].
  - now split.
  - destruct (step_silent_without_recognition c e Href Hempty) as [Ht Hs].
    pose proof (step_recognitionRef c e) as Hkeep.
    destruct (step c e) as [c1 t1]. cbn [fst snd] in *.
    rewrite Href in Hkeep.
    destruct (IH c1 Hkeep Hs) as [Ht' Hs'].
    destruct (run c1 es) as [c2 t2]. cbn [fst snd] in *.
    subst t1 t2. now split.
Qed.

End Unsupported.

(** X2. In a browser without speech recognition the only browser call a
    session ever makes is the "not supported" toast of the mount: the
    transcript stays empty whatever is pressed, so the view keeps showing
    the placeholder with Clear, Copy and Download disabled. *)
Theorem unsupported_session_is_inert :
  forall (w : Window) (es : list Event),
    unsupported w = true ->
    snd (session w es) = [ShowToast notSupportedToast]
    /\ transcript (fst (session w es)) = ""
    /\ pane (render (fst (session w es)))
       = Placeholder "Start speaking to see the transcript..."
    /\ clearDisabled (render (fst (session w es))) = true
    /\ copyDisabled (render (fst (session w es))) = true
    /\ downloadDisabled (render (fst (session w es))) = true.
Proof.
  intros w es Hw. unfold session. rewrite (mount_unsupported w Hw).
  destruct (run_silent_without_recognition es initial eq_refl eq_refl)
    as [Htrace Hempty].
  destruct (run initial es) as [c t]. cbn [fst snd] in *. subst t.
  unfold render. cbn [pane clearDisabled copyDisabled downloadDisabled].
  rewrite Hempty. repeat split.
Qed.

Lemma unsupported_session_is_inert_witness :
  snd (session noSpeech
         [toggleListening; copyTranscript; downloadTranscript someDay;
          clearTranscript; toggleBackground true; toggleListening])
  = [ShowToast notSupportedToast].
Proof.
  destruct (unsupported_session_is_inert noSpeech
              [toggleListening; copyTranscript; downloadTranscript someDay;
               clearTranscript; toggleBackground true; toggleListening]
              eq_refl) as [Htrace _].
  exact Htrace.
Defined.

(** ** The view and the background switch *)

Section ViewAndSwitch.

Lemma withTranscript_empty_same (c : Component) :
  withTranscript "" c = c <-> transcript c = "".
Proof.
  split.
  - intros H. rewrite <- H. reflexivity.
  - intros H. rewrite <- H. apply withTranscript_same.
Qed.

Lemma withBackground_twice (b b' : bool) (c : Component) :
  withBackground b (withBackground b' c) = withBackground b c.
Proof. reflexivity. Qed.

Lemma withBackground_same (c : Component) :
  withBackground (runInBackground c) c = c.
Proof. now destruct c. Qed.

(** No handler reads [runInBackground]. *)
Lemma step_blind_to_background (b : bool) (c : Component) (e : Event) :
  isBackgroundToggle e = false ->
  step (withBackground b c) e
  = (withBackground b (fst (step c e)), snd (step c e)).
Proof.
  intros He.
  destruct e as [| |now| |checked|ev|ev|]; try discriminate He.
  - now rewrite !step_toggle.
  - now rewrite !step_copy.
  - now rewrite !step_download.
  - now rewrite !step_clear.
  - rewrite !step_result_any.
    change (hasRecognition (withBackground b c)) with (hasRecognition c).
    now destruct (hasRecognition c).
  - rewrite !step_errored_any.
    change (hasRecognition (withBackground b c)) with (hasRecognition c).
    now destruct (hasRecognition c).
  - rewrite !step_ended. cbn [withBackground recognitionRef].
    destruct (recognitionRef c) as [r|]; [|reflexivity].
    now destruct (onend_isListening r).
Qed.

Lemma run_blind_to_background (es : list Event) :
  forall (b : bool) (c : Component),
  exists b' : bool,
    run (withBackground b c) es
    = (withBackground b' (fst (run c es)), snd (run c es)).
Proof.
  induction es as [|e es IH]; intros b c; cbn [run].
  - now exists b.
  - destruct (isBackgroundToggle e) eqn:He.
    + destruct e; try discriminate He.
      rewrite !step_background.
      change {| isListening := isListening (withBackground b c);
                transcript := transcript (withBackground b c);
                runInBackground := checked;
                recognitionRef := recognitionRef (withBackground b c) |}
        with (withBackground checked c).
      change {| isListening := isListening c;
                transcript := transcript c;
                runInBackground := checked;
                recognitionRef := recognitionRef c |}
        with (withBackground checked c).
      destruct (run (withBackground checked c) es) as [c2 t2].
      exists (runInBackground c2). now rewrite withBackground_same.
    + rewrite (step_blind_to_background b c e He).
      destruct (step c e) as [c1 t1]. cbn [fst snd].
      destruct (IH b c1) as [b' Hrun]. rewrite Hrun.
      destruct (run c1 es) as [c2 t2]. now exists b'.
Qed.

Lemma run_without_background (es : list Event) :
  forall c : Component,
  exists b' : bool,
    run c es
    = (withBackground b'
         (fst (run c (filter (fun e => negb (isBackgroundToggle e)) es))),
       snd (run c (filter (fun e => negb (isBackgroundToggle e)) es))).
Proof.
  induction es as [|e es IH]; intros c; cbn [run filter].
  - exists (runInBackground c). now rewrite withBackground_same.
  - destruct (isBackgroundToggle e) eqn:He; cbn [negb].
    + destruct e; try discriminate He.
      rewrite step_background.
      change {| isListening := isListening c;
                transcript := transcript c;
                runInBackground := checked;
                recognitionRef := recognitionRef c |}
        with (withBackground checked c).
      destruct (run_blind_to_background es checked c) as [b1 Hrun].
      rewrite Hrun. destruct (IH c) as [b2 Hfilter]. rewrite Hfilter.
      cbn [fst snd app]. exists b1. now rewrite withBackground_twice.
    + cbn [run]. destruct (step c e) as [c1 t1].
      destruct (IH c1) as [b' Hrun]. rewrite Hrun.
      destruct (run c1 (filter _ es)) as [c2 t2]. now exists b'.
Qed.

End ViewAndSwitch.

(** X7. The "Run in background" switch is inert: taking every press of
    it out of a run leaves the trace of browser calls unchanged, and the
    final state differs at most in the [runInBackground] flag (so the
    listening flag, the transcript and the recognition object are the
    same). *)
Theorem background_switch_is_inert :
  forall (c : Component) (es : list Event),
    snd (run c es)
    = snd (run c (filter (fun e => negb (isBackgroundToggle e)) es))
    /\ fst (run c es)
       = withBackground (runInBackground (fst (run c es)))
           (fst (run c (filter (fun e => negb (isBackgroundToggle e)) es))).
Proof.
  intros c es. destruct (run_without_background es c) as [b' H].
  rewrite H. cbn [fst snd]. split; reflexivity.
Qed.

(** X8. Clear, Copy and Download are rendered disabled exactly when
    pressing them would change nothing: the button is disabled if and
    only if its handler leaves the state as it is and makes no browser
    call. *)
Theorem disabled_buttons_are_the_noops :
  forall (c : Component) (now : JS.Date),
    (clearDisabled (render c) = true <-> step c clearTranscript = (c, []))
    /\ (copyDisabled (render c) = true <-> step c copyTranscript = (c, []))
    /\ (downloadDisabled (render c) = true
        <-> step c (downloadTranscript now) = (c, [])).
Proof.
  intros c now. unfold render.
  cbn [clearDisabled copyDisabled downloadDisabled].
  rewrite step_clear, step_copy, step_download.
  rewrite negb_true_iff, truthy_empty.
  split; [|split].
  - split.
    + intros H. f_equal. now apply withTranscript_empty_same.
    + intros H. apply withTranscript_empty_same. congruence.
  - destruct (transcript c); cbn [JS.truthy]; split; congruence.
  - destruct (transcript c); cbn [JS.truthy]; split; congruence.
Qed.

Lemma disabled_buttons_are_the_noops_witness :
  step initial clearTranscript = (initial, [])
  /\ step initial copyTranscript = (initial, [])
  /\ step initial (downloadTranscript someDay) = (initial, []).
Proof.
  destruct (disabled_buttons_are_the_noops initial someDay)
    as ([Hclear _] & [Hcopy _] & [Hdownload _]).
  exact (conj (Hclear eq_refl) (conj (Hcopy eq_refl) (Hdownload eq_refl))).
Defined.

(** ** Paired browser calls *)

Section Pairing.






End Pairing.


(** ** The listening flag over a session *)

Section ListeningFlag.




End ListeningFlag.


